(** * A book catalogue served over GraphQL: the resolvers of [src/index.ts]

    The development embeds the resolver map of the server (queries
    [allBooks] and [getBook], mutations [addBook], [deleteBook] and
    [updateBook], subscription [bookSub]), the seed array [books] and the
    parts of the schema text [typeDefs] that decide what reaches a resolver
    and what leaves it (the [!] markers of [BookInput] and of the result
    type of [getBook]).

    The global array [books] becomes an explicit [list Book.t] threaded
    through the resolvers; [pubsub] becomes the list of events published so
    far; [nanoid()] becomes an argument carrying the string it returned;
    [String.prototype.toLowerCase] is written out on ASCII text and left
    open, as a parameter, on any other text. *)

From Stdlib Require Import PrimFloat FloatOps FloatAxioms SpecFloat.
From Stdlib Require Import ZArith String Ascii List Bool Lia.
From stdpp Require Import base option list strings.

Open Scope string_scope.
Open Scope list_scope.

(** ** JavaScript values: truthiness and the [||] operator *)

(** [ToBoolean] of the value kinds the resolvers test: the empty string,
    the numbers [0], [-0] and [NaN], and [null]/[undefined] are falsy. *)
Class Truthy (A : Type) := truthy : A → bool.

#[export] Instance truthy_string : Truthy string :=
  λ s, match s with EmptyString => false | String _ _ => true end.

(** A GraphQL [Int] is an integer; only [0] is falsy. *)
#[export] Instance truthy_Z : Truthy Z :=
  λ n, negb (n =? 0)%Z.

(** A GraphQL [Float] is an IEEE double. *)
#[export] Instance truthy_float : Truthy float :=
  λ x, negb (PrimFloat.eqb x 0%float) && negb (PrimFloat.is_nan x).

(** An optional field: [None] stands for [null] and for [undefined]. *)
#[export] Instance truthy_option {A} `{Truthy A} : Truthy (option A) :=
  λ o, match o with Some v => truthy v | None => false end.

(** [x || y] where both sides have the same type. *)
Definition lor {A} `{Truthy A} (x y : A) : A :=
  if truthy x then x else y.

(** [x || y] where [x] is an optional field and [y] a value that is there. *)
Definition lor_dflt {A} `{Truthy A} (x : option A) (y : A) : A :=
  match x with
  | Some v => lor v y
  | None => y
  end.

(** ** Strings: [toLowerCase] and [includes]

    Strings are sequences of 8-bit characters: ASCII text as it is, any
    other text in an encoding that uses the codes from 128 on for it. *)

(** [A]-[Z] to [a]-[z], every other character as it is. *)
Definition lower_char (c : ascii) : ascii :=
  let n := nat_of_ascii c in
  if (65 <=? n)%nat && (n <=? 90)%nat then ascii_of_nat (n + 32) else c.

Fixpoint lower_ascii (s : string) : string :=
  match s with
  | EmptyString => EmptyString
  | String c r => String (lower_char c) (lower_ascii r)
  end.

(** Every character of [s] has a code below 128. *)
Fixpoint is_ascii (s : string) : bool :=
  match s with
  | EmptyString => true
  | String c r => (nat_of_ascii c <? 128)%nat && is_ascii r
  end.

(** What [String.prototype.toLowerCase] returns for a string that has a
    character outside ASCII. It follows the Unicode case tables and looks
    at the characters around the one it maps; none of that is written out
    here, and nothing below depends on what it is. *)
Class Unicode := unicode_lower : string → string.

(** [s.toLowerCase()]: the letter-by-letter map on ASCII text, the Unicode
    mapping on any other. *)
Definition toLowerCase `{Unicode} (s : string) : string :=
  if is_ascii s then lower_ascii s else unicode_lower s.

(** [startsWith s p]: [p] is a prefix of [s]. *)
Fixpoint startsWith (s p : string) {struct p} : bool :=
  match p, s with
  | EmptyString, _ => true
  | String _ _, EmptyString => false
  | String b p', String a s' => Ascii.eqb a b && startsWith s' p'
  end.

(** [includes s p]: [p] occurs in [s] at some position. *)
Fixpoint includes (s p : string) : bool :=
  startsWith s p ||
  match s with
  | EmptyString => false
  | String _ s' => includes s' p
  end.

(** ** The data model *)

(** The objects held by the array [books]. [title], [author] and [year]
    come from non-null inputs, [description] is always a string
    ([input.description || ""]), [rating] is a number or [null]. *)
Module Book.
Record t := mk {
  id : string;
  title : string;
  description : string;
  rating : option float;
  author : string;
  year : Z
}.
End Book.

(** [input BookInput] after coercion: [title], [author] and [year] are
    declared with [!]. *)
Module BookInput.
Record t := mk {
  title : string;
  description : option string;
  rating : option float;
  author : string;
  year : Z
}.
End BookInput.

(** The variables of a request for [addBook] before they are checked
    against [input BookInput]: any field may be missing or [null]. *)
Module RawBookInput.
Record t := mk {
  title : option string;
  description : option string;
  rating : option float;
  author : option string;
  year : option Z
}.
End RawBookInput.

(** [input UpdateBookInput]: only [id] is declared with [!]. *)
Module UpdateBookInput.
Record t := mk {
  id : string;
  title : option string;
  description : option string;
  rating : option float;
  author : option string;
  year : option Z
}.
End UpdateBookInput.

(** The object published on the topic: [{ addBook: newBook }]. *)
Module Payload.
Record t := mk { addBook : Book.t }.
End Payload.

(** ** The seed array

    A decimal literal denotes the double nearest to it, as in the source. *)

#[local] Set Warnings "-inexact-float".

Definition books : list Book.t := [
  Book.mk "n12clfp3K" "The Guardians"
    "In the small Florida town of Seabrook, a young lawyer named Keith Russo was shot dead at his desk as he worked late one night. The killer left no clues. There were no witnesses, no one with a motive. But the police soon came to suspect Quincy Miller, a young black man who was once a client of Russo’s..."
    (Some 4.5%float) "John Grisham" 1970;
  Book.mk "TaFvKQmgQ" "The Girl on the Train"
    "Rachel catches the same commuter train every morning. She knows it will wait at the same signal each time, overlooking a row of back gardens. She’s even started to feel like she knows the people who live in one of the houses. ‘Jess and Jason’, she calls them. Their life – as she sees it – is perfect. If only Rachel could be that happy..."
    (Some 4.2%float) "John Grisham" 2016;
  Book.mk "3y-67bb6Z" "Fahrenheit 451"
    "The terrifyingly prophetic novel of a post-literate future."
    (Some 4.6%float) "Ray Bradbury" 1953;
  Book.mk "Rw3sPphui" "To Kill a Mockingbird"
    "The perennially beloved and treacly account of growing up in a small Southern town during the Depression....To read the novel is, for most, an exercise in wish-fulfillment and self-congratulation, a chance to consider thorny issues of race and prejudice from a safe distance and with the comfortable certainty that the reader would never harbor the racist attitudes espoused by the lowlifes in the novel."
    (Some 4.6%float) "Harper Lee" 1960;
  Book.mk "b8eWGRQo6" "The Shining"
    "Jack Torrance’s new job at the Overlook Hotel is the perfect chance for a fresh start. As the off-season caretaker at the atmospheric old hotel, he’ll have plenty of time to spend reconnecting with his family and working on his writing. But as the harsh winter weather sets in, the idyllic location feels ever more remote . . . and more sinister"
    (Some 4.7%float) "Stephen King" 1980;
  Book.mk "HVL-jHzdH" "Foundation"
    "The first novel in Isaac Asimov’s classic science-fiction masterpiece, the Foundation series"
    (Some 4.5%float) "Isaak Asimov" 1942;
  Book.mk "eqbOaeNk-" "The Catcher in the Rye"
    "The hero-narrator of The Catcher in the Rye is an ancient child of sixteen, a native New Yorker named Holden Caulfield.Through circumstances that tend to preclude adult, secondhand description, he leaves his prep school in Pennsylvania and goes underground in New York City for three days."
    (Some 4.6%float) "J. D. Salinger" 1951
].

(** ** Queries *)

(** [books.find((book) => book.id === id)] together with
    [books.findIndex(...)]: the first book with that id and its index. *)
Definition find_book (i : string) (store : list Book.t) : option (nat * Book.t) :=
  list_find (λ book, Book.id book = i) store.

(** [allBooks: (_, { search }) => ...]. *)
Definition allBooks `{Unicode} (search : option string) (store : list Book.t)
  : list Book.t :=
  if negb (truthy search) then store
  else
    match search with
    | Some s =>
        List.filter
          (λ book, includes (toLowerCase (Book.title book)) (toLowerCase s))
          store
    | None => store
    end.

(** [getBook: (_, { id }) => books.find((book) => book.id === id)]. *)
Definition getBook (i : string) (store : list Book.t) : option Book.t :=
  snd <$> find_book i store.

(** ** Mutations *)

(** The state the mutations act on: the array and the events handed to
    [pubsub.publish] so far, oldest first, each with its topic. *)
Record World := mkWorld {
  w_books : list Book.t;
  w_published : list (string * Payload.t)
}.

(** The two effects of [addBook], in the order the body performs them. *)
Inductive stmt :=
  | Push (b : Book.t)
  | Publish (topic : string) (payload : Payload.t).

Definition exec (s : stmt) (w : World) : World :=
  match s with
  | Push b => mkWorld (w_books w ++ [b]) (w_published w)
  | Publish topic payload => mkWorld (w_books w) (w_published w ++ [(topic, payload)])
  end.

(** The worlds reached after each statement of a straight-line body. *)
Fixpoint run (ss : list stmt) (w : World) : list World :=
  match ss with
  | [] => []
  | s :: ss' => let w' := exec s w in w' :: run ss' w'
  end.

(** The world a body ends in. *)
Definition finish (ss : list stmt) (w : World) : World :=
  List.last (run ss w) w.

(** The object literal bound to [newBook]; [nid] is what [nanoid()] returned. *)
Definition newBook (input : BookInput.t) (nid : string) : Book.t :=
  {| Book.id := nid;
     Book.title := BookInput.title input;
     Book.description := lor_dflt (BookInput.description input) "";
     Book.rating := lor (BookInput.rating input) None;
     Book.year := BookInput.year input;
     Book.author := BookInput.author input |}.

(** The statements of [addBook] between the literal and the [return]. *)
Definition addBook_body (input : BookInput.t) (nid : string) : list stmt :=
  let b := newBook input nid in
  [Push b; Publish "bookSub" (Payload.mk b)].

(** [addBook: (_, { input }) => ...]: the returned book and the new world. *)
Definition addBook (input : BookInput.t) (nid : string) (w : World) : Book.t * World :=
  (newBook input nid, finish (addBook_body input nid) w).

(** [deleteBook: (_, { id }) => ...]. [splice(index, 1)] removes the element
    at [index] and returns it in an array, of which the resolver returns
    element [0]. *)
Definition deleteBook (i : string) (store : list Book.t) : option Book.t * list Book.t :=
  match fst <$> find_book i store with
  | Some index => (store !! index, delete index store)
  | None => (None, store)
  end.

(** The five assignments of [updateBook] to the object found. *)
Definition merge (input : UpdateBookInput.t) (bookToUpdate : Book.t) : Book.t :=
  {| Book.id := Book.id bookToUpdate;
     Book.title := lor_dflt (UpdateBookInput.title input) (Book.title bookToUpdate);
     Book.description :=
       lor_dflt (UpdateBookInput.description input) (Book.description bookToUpdate);
     Book.author := lor_dflt (UpdateBookInput.author input) (Book.author bookToUpdate);
     Book.year := lor_dflt (UpdateBookInput.year input) (Book.year bookToUpdate);
     Book.rating := lor (UpdateBookInput.rating input) (Book.rating bookToUpdate) |}.

(** [updateBook: (_, { input }) => ...]. The object found is an element of
    the array and is changed in place. *)
Definition updateBook (input : UpdateBookInput.t) (store : list Book.t)
  : option Book.t * list Book.t :=
  match find_book (UpdateBookInput.id input) store with
  | Some (index, bookToUpdate) =>
      let b := merge input bookToUpdate in
      (Some b, <[index := b]> store)
  | None => (None, store)
  end.

(** ** The subscription *)

(** [resolve: (payload) => payload.addBook]. *)
Definition bookSub_resolve (payload : Payload.t) : Book.t :=
  Payload.addBook payload.

(** [subscribe: () => pubsub.asyncIterator("bookSub")]: a listener that
    joined when [since] events had been published receives the later
    events of its topic, in order; [bookSub] hands each through [resolve]. *)
Definition bookSub (since : nat) (w : World) : list Book.t :=
  bookSub_resolve <$>
    (snd <$> List.filter (λ e, String.eqb (fst e) "bookSub") (drop since (w_published w))).

(** ** The schema around the resolvers *)

Inductive error :=
  | ValidationError      (* the variables do not fit the declared input type *)
  | NullForNonNull.      (* a resolver returned nothing for a field declared with [!] *)

Inductive outcome (A : Type) :=
  | Data (a : A)
  | Failure (e : error).
Arguments Data {A} a.
Arguments Failure {A} e.

(** A value fits [Int] when it is in the signed 32-bit range. *)
Definition fits_Int (n : Z) : bool :=
  (-2147483648 <=? n)%Z && (n <=? 2147483647)%Z.

(** A value fits [Float] when it is a finite number. *)
Definition fits_Float (x : float) : bool := PrimFloat.is_finite x.

(** Coercion of the variables to [input BookInput]: the fields declared
    [String!], [String!] and [Int!] must be there, the year must fit [Int]
    and a rating that is there must fit [Float]. *)
Definition coerce_BookInput (raw : RawBookInput.t) : option BookInput.t :=
  match RawBookInput.title raw, RawBookInput.author raw, RawBookInput.year raw with
  | Some t, Some a, Some y =>
      if fits_Int y && from_option fits_Float true (RawBookInput.rating raw)
      then Some (BookInput.mk t (RawBookInput.description raw)
                   (RawBookInput.rating raw) a y)
      else None
  | _, _, _ => None
  end.

(** [addBook(input: BookInput!): Book!] as a request: the resolver runs
    only on variables that fit the input type. *)
Definition mutation_addBook (raw : RawBookInput.t) (nid : string) (w : World)
  : outcome Book.t * World :=
  match coerce_BookInput raw with
  | Some input => let '(b, w') := addBook input nid w in (Data b, w')
  | None => (Failure ValidationError, w)
  end.

(** Completion of a field whose type is declared with [!]. *)
Definition complete_nonnull {A} (r : option A) : outcome A :=
  match r with
  | Some a => Data a
  | None => Failure NullForNonNull
  end.

(** [getBook(id: ID!): Book!] as a request. *)
Definition query_getBook (i : string) (store : list Book.t) : outcome Book.t :=
  complete_nonnull (getBook i store).

(** ** Histories of mutations *)

Inductive op :=
  | Create (input : BookInput.t) (nid : string)
  | Update (input : UpdateBookInput.t)
  | Delete (i : string).

Definition step (w : World) (o : op) : World :=
  match o with
  | Create input nid => snd (addBook input nid w)
  | Update input => mkWorld (snd (updateBook input (w_books w))) (w_published w)
  | Delete i => mkWorld (snd (deleteBook i (w_books w))) (w_published w)
  end.

Definition run_ops (os : list op) (w : World) : World :=
  foldl step w os.

(** The strings [nanoid()] returned during a history. *)
Fixpoint nanoids (os : list op) : list string :=
  match os with
  | [] => []
  | Create _ nid :: os' => nid :: nanoids os'
  | _ :: os' => nanoids os'
  end.

(** The world at process start. *)
Definition initial : World := mkWorld books [].

(** * The vocabulary of the specification *)

(** A field of an input counts as supplied with [v] when it is there and
    [v] is truthy; otherwise it is falsy or omitted. *)
Definition supplied {A} `{Truthy A} (x : option A) (v : A) : Prop :=
  x = Some v ∧ truthy v = true.

Definition falsy_or_omitted {A} `{Truthy A} (x : option A) : Prop :=
  x = None ∨ ∃ v, x = Some v ∧ truthy v = false.



(** The ids of a store are unique. *)
Definition unique_ids (store : list Book.t) : Prop :=
  NoDup (Book.id <$> store).

(** The ids held by a world, in store order. *)
Definition ids (w : World) : list string := Book.id <$> w_books w.

(** What [nanoid()] returns: a string of 21 characters. *)
Definition nanoid_result (s : string) : Prop := String.length s = 21.






(** The book at index [k] is the first of the store with id [i]. *)
Definition first_with_id (i : string) (store : list Book.t) (k : nat) (b : Book.t)
  : Prop :=
  store !! k = Some b ∧ Book.id b = i ∧
  ∀ j y, store !! j = Some y → j < k → Book.id y ≠ i.

(** A history in which [nanoid()] returns the same string twice. *)
Definition colliding_history : list op := [
  Create (BookInput.mk "Dune" None None "Herbert" 1965) "V1StGXR8_Z5jdHi6B-myT";
  Create (BookInput.mk "Emma" None None "Austen" 1815) "V1StGXR8_Z5jdHi6B-myT"
].

(** A choice for the text outside ASCII, for examples on ASCII text, where
    the choice plays no part. *)
Definition ascii_only : Unicode := λ s, s.

(** [kept] holds exactly the elements of [l] that satisfy [P], in the order
    and with the multiplicity they have in [l]. *)
Inductive Selected {A} (P : A → Prop) : list A → list A → Prop :=
  | Selected_nil : Selected P [] []
  | Selected_keep x l kept : P x → Selected P l kept → Selected P (x :: l) (x :: kept)
  | Selected_skip x l kept : ¬ P x → Selected P l kept → Selected P (x :: l) kept.

(** A history that creates two books, changes one seed book and deletes
    another. *)
Definition sample_history : list op := [
  Create (BookInput.mk "Dune" None None "Herbert" 1965) "V1StGXR8_Z5jdHi6B-myT";
  Update (UpdateBookInput.mk "HVL-jHzdH" None None None (Some "Isaac Asimov") None);
  Delete "3y-67bb6Z";
  Create (BookInput.mk "Emma" (Some "A novel") (Some 4%float) "Austen" 1815)
    "Uakgb_J5m9g-0JDMbcJqL"
].

(** ** The rest of the resolver map behind the schema *)

(** [updateBook(input: UpdateBookInput!): Book!] as a request: the
    resolver has run, and changed the array, before its result is
    completed against the declared type. *)
Definition mutation_updateBook (input : UpdateBookInput.t) (store : list Book.t)
  : outcome Book.t * list Book.t :=
  let '(result, store') := updateBook input store in
  (complete_nonnull result, store').

(** ** More vocabulary: composed updates, created books *)

(** One input standing for [first] followed by [second] on the same book:
    each field is [second.x || first.x]. *)
Definition combine (first second : UpdateBookInput.t) : UpdateBookInput.t :=
  {| UpdateBookInput.id := UpdateBookInput.id second;
     UpdateBookInput.title :=
       lor (UpdateBookInput.title second) (UpdateBookInput.title first);
     UpdateBookInput.description :=
       lor (UpdateBookInput.description second) (UpdateBookInput.description first);
     UpdateBookInput.rating :=
       lor (UpdateBookInput.rating second) (UpdateBookInput.rating first);
     UpdateBookInput.author :=
       lor (UpdateBookInput.author second) (UpdateBookInput.author first);
     UpdateBookInput.year :=
       lor (UpdateBookInput.year second) (UpdateBookInput.year first) |}.

(** The events a history hands to [pubsub.publish], oldest first. *)
Fixpoint published_by (os : list op) : list (string * Payload.t) :=
  match os with
  | [] => []
  | Create input nid :: os' =>
      ("bookSub", Payload.mk (newBook input nid)) :: published_by os'
  | _ :: os' => published_by os'
  end.

Definition is_Delete (o : op) : bool :=
  match o with
  | Delete _ => true
  | _ => false
  end.

(** * Properties *)

(** ** Truthiness in the words of the specification *)

Lemma truthy_string_nonempty (s : string) : truthy s = true ↔ s ≠ "".
Proof. destruct s; cbn; split; congruence. Qed.

Lemma truthy_Z_nonzero (n : Z) : truthy n = true ↔ n ≠ 0%Z.
Proof.
  unfold truthy, truthy_Z. rewrite negb_true_iff. apply Z.eqb_neq.
Qed.

Lemma SFeqb_same (f : spec_float) :
  SFeqb f f = negb (match f with S754_nan => true | _ => false end).
Proof.
  destruct f as [s|s| |s m e]; try solve [reflexivity | destruct s; reflexivity].
  unfold SFeqb, SFcompare. rewrite Z.compare_refl, Pos.compare_cont_refl.
  destruct s; reflexivity.
Qed.

Lemma SFeqb_zero (f : spec_float) :
  SFeqb f (S754_zero false) = match f with S754_zero _ => true | _ => false end.
Proof. destruct f as [s|s| |s m e]; try destruct s; reflexivity. Qed.

(** A double is truthy unless it is one of the two zeros or [NaN]. *)
Lemma truthy_float_nonzero (x : float) :
  truthy x = true ↔ x ≠ 0%float ∧ x ≠ (-0)%float ∧ x ≠ nan.
Proof.
  unfold truthy, truthy_float, is_nan. rewrite !FloatAxioms.eqb_spec, SFeqb_same.
  change (Prim2SF 0) with (S754_zero false). rewrite SFeqb_zero.
  split.
  - intros Ht. split_and!; intros ->; vm_compute in Ht; discriminate.
  - intros (H0 & Hn0 & Hnan).
    destruct (Prim2SF x) as [[|]|s| |s m e] eqn:Hx; try reflexivity.
    + destruct Hn0. by apply Prim2SF_inj.
    + destruct H0. by apply Prim2SF_inj.
    + destruct Hnan. by apply Prim2SF_inj.
Qed.

Lemma truthy_option_Some {A} `{Truthy A} (x : option A) :
  truthy x = true ↔ ∃ v, x = Some v ∧ truthy v = true.
Proof.
  destruct x as [v|]; cbn; split.
  - intros Hv. by exists v.
  - by intros (? & [= <-] & Hv).
  - discriminate.
  - by intros (? & ? & _).
Qed.

Section Lor.
Context {A : Type} `{Truthy A}.

(** Every optional field is in exactly one of the two cases. *)
Lemma supplied_or_not (x : option A) :
  (∃ v, supplied x v) ∨ falsy_or_omitted x.
Proof.
  destruct x as [v|]; [|right; by left].
  destruct (truthy v) eqn:Hv; [left | right; right]; by exists v.
Qed.

Lemma supplied_not_falsy (x : option A) (v : A) :
  supplied x v → ¬ falsy_or_omitted x.
Proof.
  intros [-> Hv] [? | (v' & [= <-] & Hv')]; congruence.
Qed.



Lemma lor_supplied (x y : option A) (v : A) :
  supplied x v → lor x y = Some v.
Proof. intros [-> Hv]. unfold lor. cbn. by rewrite Hv. Qed.

Lemma lor_falsy (x y : option A) :
  falsy_or_omitted x → lor x y = y.
Proof.
  intros [-> | (v & -> & Hv)]; unfold lor; cbn; [done|]. by rewrite Hv.
Qed.


End Lor.

(** ** Finding a book *)

Lemma find_book_Some (i : string) (store : list Book.t) (k : nat) (b : Book.t) :
  find_book i store = Some (k, b) ↔
  store !! k = Some b ∧ Book.id b = i ∧
  ∀ j y, store !! j = Some y → j < k → Book.id y ≠ i.
Proof. unfold find_book. apply (list_find_Some (λ book, Book.id book = i)). Qed.

Lemma find_book_None (i : string) (store : list Book.t) :
  find_book i store = None ↔ Forall (λ b, Book.id b ≠ i) store.
Proof. unfold find_book. apply (list_find_None (λ book, Book.id book = i)). Qed.

Lemma getBook_Some (i : string) (store : list Book.t) (b : Book.t) :
  getBook i store = Some b ↔ ∃ k, find_book i store = Some (k, b).
Proof.
  unfold getBook. destruct (find_book i store) as [[k b']|]; cbn; split.
  - intros [= ->]. by exists k.
  - by intros (k' & [= _ ->]).
  - discriminate.
  - by intros (? & ?).
Qed.

Lemma getBook_None (i : string) (store : list Book.t) :
  getBook i store = None ↔ ∀ b, b ∈ store → Book.id b ≠ i.
Proof.
  unfold getBook. rewrite fmap_None, find_book_None. apply Forall_forall.
Qed.

(** Writing a book with the same id over the first match keeps it the
    first match. *)
Lemma find_book_insert (i : string) (store : list Book.t) (k : nat) (old new : Book.t) :
  find_book i store = Some (k, old) → Book.id new = i →
  find_book i (<[k := new]> store) = Some (k, new).
Proof.
  rewrite !find_book_Some. intros (Hk & _ & Hfirst) Hid.
  split_and!; [|done|].
  - apply list_lookup_insert_eq. by eapply lookup_lt_Some.
  - intros j y Hj Hlt. rewrite list_lookup_insert_ne in Hj by lia. eauto.
Qed.

(** ** [updateBook]: the merge and its frame *)

Lemma merge_id (input : UpdateBookInput.t) (b : Book.t) :
  Book.id (merge input b) = Book.id b.
Proof. reflexivity. Qed.


Lemma find_book_first (i : string) (store : list Book.t) (k : nat) (b : Book.t) :
  find_book i store = Some (k, b) ↔ first_with_id i store k b.
Proof. apply find_book_Some. Qed.

(** A store that holds a book with id [i] has a first one. *)
Lemma first_with_id_exists (i : string) (store : list Book.t) (b : Book.t) :
  b ∈ store → Book.id b = i → ∃ k b', first_with_id i store k b'.
Proof.
  intros Hin Hid.
  destruct (find_book i store) as [[k b']|] eqn:Hfind.
  - exists k, b'. by apply find_book_first.
  - apply find_book_None in Hfind.
    by destruct (proj1 (Forall_forall _ _) Hfind b Hin).
Qed.

(** In a store with unique ids every book is the first with its id. *)
Lemma first_with_id_unique (store : list Book.t) (b : Book.t) :
  unique_ids store → b ∈ store → ∃ k, first_with_id (Book.id b) store k b.
Proof.
  intros Huniq [k Hk]%list_elem_of_lookup_1. exists k. split_and!; [done..|].
  intros j y Hj Hlt Hy. assert (j = k); [|lia].
  apply (NoDup_lookup _ _ _ (Book.id b) Huniq); rewrite list_lookup_fmap.
  - by rewrite Hj, <- Hy.
  - by rewrite Hk.
Qed.






(** C9. [updateBook] keeps the length of the store; when it finds the book
    at index [k], the book written there has the id it had, and every other
    index holds what it held; when it finds none, the store is the same. *)
Theorem updateBook_frame (input : UpdateBookInput.t) (store : list Book.t) :
  let result := fst (updateBook input store) in
  let store' := snd (updateBook input store) in
  length store' = length store ∧
  match find_book (UpdateBookInput.id input) store with
  | Some (k, old) =>
      ∃ new,
        result = Some new ∧
        store' !! k = Some new ∧
        Book.id new = Book.id old ∧
        Book.id new = UpdateBookInput.id input ∧
        ∀ j, j ≠ k → store' !! j = store !! j
  | None => result = None ∧ store' = store
  end.
Proof.
  cbv zeta. unfold updateBook.
  destruct (find_book (UpdateBookInput.id input) store) as [[k old]|] eqn:Hfind;
    cbn [fst snd]; [|done].
  apply find_book_Some in Hfind as (Hk & Hid & _).
  split; [apply length_insert|].
  exists (merge input old). split_and!; try done.
  - apply list_lookup_insert_eq. by eapply lookup_lt_Some.
  - intros j Hj. by apply list_lookup_insert_ne.
Qed.

(** ** [deleteBook] and [getBook] *)

Lemma deleteBook_found (i : string) (store : list Book.t) (k : nat) (b : Book.t) :
  find_book i store = Some (k, b) →
  deleteBook i store = (Some b, delete k store).
Proof.
  intros Hfind. unfold deleteBook. rewrite Hfind. cbn.
  apply find_book_Some in Hfind as (-> & _). reflexivity.
Qed.

Lemma deleteBook_not_found (i : string) (store : list Book.t) :
  find_book i store = None → deleteBook i store = (None, store).
Proof. intros Hfind. unfold deleteBook. by rewrite Hfind. Qed.

(** Removing the only book with id [i] leaves no book with id [i]. *)
Lemma delete_unique_id (store : list Book.t) (k : nat) (b b' : Book.t) :
  unique_ids store → store !! k = Some b →
  b' ∈ delete k store → Book.id b' ≠ Book.id b.
Proof.
  unfold unique_ids. intros Huniq Hk [j Hj]%list_elem_of_lookup_1 Heq.
  assert (∃ j', j' ≠ k ∧ store !! j' = Some b') as (j' & Hne & Hj').
  { destruct (decide (j < k)).
    - exists j. split; [lia|]. by rewrite list_lookup_delete_lt in Hj.
    - exists (S j). split; [lia|]. rewrite list_lookup_delete_ge in Hj; [done|lia]. }
  apply Hne. eapply (NoDup_lookup _ _ _ (Book.id b) Huniq).
  - by rewrite list_lookup_fmap, Hj', <- Heq.
  - by rewrite list_lookup_fmap, Hk.
Qed.

(** [getBook] after the first match has been removed looks at what came
    after it. *)
Lemma getBook_delete_first (i : string) (store : list Book.t) (k : nat) (b : Book.t) :
  first_with_id i store k b →
  getBook i (delete k store) = getBook i (drop (S k) store).
Proof.
  revert k. induction store as [|x store IH]; intros [|k] (Hk & Hid & Hfirst);
    try done.
  cbn [delete list_delete drop].
  assert (Book.id x ≠ i) as Hx by (apply (Hfirst 0 x); [done|lia]).
  unfold getBook at 1, find_book. cbn [list_find]. rewrite decide_False by done.
  change (list_find (λ book, Book.id book = i) (delete k store))
    with (find_book i (delete k store)).
  assert (getBook i (delete k store) = getBook i (drop (S k) store)) as <-.
  { apply IH. split_and!; [done..|].
    intros j y Hj Hlt. apply (Hfirst (S j) y); [done|lia]. }
  unfold getBook. by destruct (find_book i (delete k store)) as [[n y]|].
Qed.

(** C8. Let [b] be the first book of the store with id [i]. [deleteBook]
    returns [b] and the store loses exactly that element; [getBook] for [i]
    then returns what it finds after the place [b] had. Whenever some stored
    book has the id, such a book is returned and the store is one shorter.
    When no stored book has the id, [deleteBook] returns nothing and the
    store is what it was. In a store with unique ids no book with id [i] is
    left after [deleteBook], and [getBook] for [i] returns nothing. *)
Theorem deleteBook_then_getBook (i : string) (store : list Book.t) :
  let result := fst (deleteBook i store) in
  let store' := snd (deleteBook i store) in
  (∀ k b,
     first_with_id i store k b →
     result = Some b ∧
     store' = delete k store ∧
     S (length store') = length store ∧
     getBook i store' = getBook i (drop (S k) store)) ∧
  ((∃ b, b ∈ store ∧ Book.id b = i) →
   ∃ b, result = Some b ∧ b ∈ store ∧ Book.id b = i ∧
        S (length store') = length store) ∧
  ((∀ b, b ∈ store → Book.id b ≠ i) →
   result = None ∧ store' = store ∧ getBook i store' = None) ∧
  (unique_ids store →
   (∀ b, b ∈ store' → Book.id b ≠ i) ∧ getBook i store' = None).
Proof.
  cbv zeta.
  assert (∀ k b,
    first_with_id i store k b →
    fst (deleteBook i store) = Some b ∧
    snd (deleteBook i store) = delete k store ∧
    S (length (snd (deleteBook i store))) = length store ∧
    getBook i (snd (deleteBook i store)) = getBook i (drop (S k) store)) as Hfirst.
  { intros k b Hb. pose proof Hb as (Hk & _).
    rewrite (deleteBook_found i store k b) by by apply find_book_first.
    cbn [fst snd]. split_and!; [done..| |by apply (getBook_delete_first i store k b)].
    rewrite length_delete; [|by eexists]. apply lookup_lt_Some in Hk. lia. }
  assert ((∀ b, b ∈ store → Book.id b ≠ i) →
          deleteBook i store = (None, store)) as Hnone.
  { intros Hno. by apply deleteBook_not_found, find_book_None, Forall_forall. }
  split_and!.
  - exact Hfirst.
  - intros (b0 & Hin & Hid).
    destruct (first_with_id_exists _ _ _ Hin Hid) as (k & b & Hb).
    destruct (Hfirst k b Hb) as (Hres & _ & Hlen & _).
    pose proof Hb as (Hk & Hidb & _).
    exists b. split_and!; try done. by eapply list_elem_of_lookup_2.
  - intros Hno. rewrite (Hnone Hno). cbn [fst snd].
    split_and!; [done..|]. by apply getBook_None.
  - intros Huniq.
    assert (∀ b, b ∈ snd (deleteBook i store) → Book.id b ≠ i) as Hgone.
    { destruct (find_book i store) as [[k b]|] eqn:Hfind.
      - rewrite (deleteBook_found _ _ _ _ Hfind). cbn [snd].
        apply find_book_Some in Hfind as (Hk & <- & _).
        intros b' Hb'. by eapply delete_unique_id.
      - rewrite (deleteBook_not_found _ _ Hfind). cbn [snd].
        by apply Forall_forall, find_book_None. }
    split; [exact Hgone | by apply getBook_None].
Qed.

Lemma unique_ids_books : unique_ids books.
Proof.
  unfold unique_ids. apply (bool_decide_unpack _). vm_compute. exact I.
Qed.

Lemma deleteBook_then_getBook_witness :
  unique_ids books ∧
  (Book.title <$> fst (deleteBook "3y-67bb6Z" books)) = Some "Fahrenheit 451" ∧
  length (snd (deleteBook "3y-67bb6Z" books)) = 6 ∧
  (∀ b, b ∈ snd (deleteBook "3y-67bb6Z" books) → Book.id b ≠ "3y-67bb6Z") ∧
  getBook "3y-67bb6Z" (snd (deleteBook "3y-67bb6Z" books)) = None.
Proof.
  pose proof (deleteBook_then_getBook "3y-67bb6Z" books) as (Hfirst & _ & _ & Huniq).
  destruct (Hfirst 2
              (Book.mk "3y-67bb6Z" "Fahrenheit 451"
                 "The terrifyingly prophetic novel of a post-literate future."
                 (Some 4.6%float) "Ray Bradbury" 1953))
    as (Hres & _ & Hlen & _).
  { split_and!; [reflexivity..|].
    intros j y Hj Hlt. destruct j as [|[|j]]; [..|lia];
      injection Hj as <-; discriminate. }
  destruct (Huniq unique_ids_books) as [Hgone Hget].
  split_and!; [exact unique_ids_books | by rewrite Hres | | exact Hgone | exact Hget].
  exact (eq_add_S _ 6 Hlen).
Defined.

(** A store in which two books share an id: [deleteBook] removes the first
    and [getBook] then returns the second. *)
Lemma deleteBook_then_getBook_duplicate :
  Book.title <$>
    getBook "V1StGXR8_Z5jdHi6B-myT"
      (snd (deleteBook "V1StGXR8_Z5jdHi6B-myT"
              (w_books (run_ops colliding_history initial))))
  = Some "Emma".
Proof. reflexivity. Qed.

(** The resolver [getBook] on an id that no stored book has: [find] runs to
    the end of the array and returns [undefined]. *)
Lemma getBook_unknown_id (i : string) (store : list Book.t) :
  (∀ b, b ∈ store → Book.id b ≠ i) → getBook i store = None.
Proof. apply getBook_None. Qed.

(** The query [getBook] turns that into a failure, for every store. *)
Lemma query_getBook_unknown_id (i : string) (store : list Book.t) :
  (∀ b, b ∈ store → Book.id b ≠ i) →
  query_getBook i store = Failure NullForNonNull.
Proof.
  intros Hnone. unfold query_getBook. by rewrite getBook_unknown_id.
Qed.

Lemma query_getBook_found (i : string) (store : list Book.t) (b : Book.t) :
  getBook i store = Some b → query_getBook i store = Data b.
Proof. intros Hget. unfold query_getBook. by rewrite Hget. Qed.

(** C7. The query [getBook] is declared [Book!]: for an id that no stored
    book has, the resolver returns nothing and the request fails. *)
Theorem query_getBook_unknown_id_fails :
  getBook "no-such-id" books = None ∧
  query_getBook "no-such-id" books = Failure NullForNonNull.
Proof. split; reflexivity. Qed.

(** ** The seed store *)

(** C10. At process start the store holds the seven seed books, and
    [allBooks] without a search term returns them in declaration order. *)
Theorem initial_store_seeded `{Unicode} :
  length (w_books initial) = 7 ∧
  allBooks None (w_books initial) = books ∧
  Book.id <$> allBooks None (w_books initial) =
    ["n12clfp3K"; "TaFvKQmgQ"; "3y-67bb6Z"; "Rw3sPphui"; "b8eWGRQo6";
     "HVL-jHzdH"; "eqbOaeNk-"].
Proof. split_and!; reflexivity. Qed.

(** ** [allBooks]: the search *)

Lemma startsWith_prefix (s p : string) :
  startsWith s p = true ↔ ∃ r, s = p +:+ r.
Proof.
  revert s. induction p as [|b p IH]; intros s; cbn.
  - split; [intros _; by exists s | done].
  - destruct s as [|a s]; cbn.
    + split; [done | by intros (? & ?)].
    + rewrite andb_true_iff, IH, Ascii.eqb_eq. split.
      * intros (-> & r & ->). by exists r.
      * intros (r & [= -> ->]). split; [done | by exists r].
Qed.

Lemma includes_infix (s p : string) :
  includes s p = true ↔ ∃ pre post, s = pre +:+ p +:+ post.
Proof.
  induction s as [|a s IH]; cbn [includes]; rewrite orb_true_iff, startsWith_prefix.
  - split.
    + intros [(r & Hr) | ?]; [|done]. by exists "", r.
    + intros (pre & post & Hs). left.
      destruct pre; [by exists post | discriminate].
  - rewrite IH. split.
    + intros [(r & Hr) | (pre & post & ->)].
      * by exists "", r.
      * by exists (String a pre), post.
    + intros ([|c pre] & post & Hs).
      * left. by exists post.
      * right. injection Hs as -> ->. by exists pre, post.
Qed.

Lemma append_cons (c : ascii) (s t : string) :
  String c s +:+ t = String c (s +:+ t).
Proof. reflexivity. Qed.











Lemma filter_Selected {A} (f : A → bool) (l : list A) :
  Selected (λ x, f x = true) l (List.filter f l).
Proof.
  induction l as [|x l IH]; cbn; [constructor|].
  destruct (f x) eqn:Hx; constructor; congruence.
Qed.


Lemma Selected_none {A} (P : A → Prop) (l kept : list A) :
  Selected P l kept → (∀ x, x ∈ l → ¬ P x) → kept = [].
Proof.
  induction 1 as [|x l kept Hx _ _|x l kept _ _ IH]; intros Hnone; [done| |].
  - destruct (Hnone x); [left | done].
  - apply IH. intros y Hy. apply Hnone. by right.
Qed.

Lemma allBooks_search `{Unicode} (s : string) (store : list Book.t) :
  s ≠ "" →
  allBooks (Some s) store =
  List.filter (λ book, includes (toLowerCase (Book.title book)) (toLowerCase s)) store.
Proof. destruct s; [done|reflexivity]. Qed.




(** The search of the specification's example: case is ignored on both
    sides, and [Foundation] does not match. *)
Example allBooks_train `{Unicode} :
  Book.title <$> allBooks (Some "train") books = ["The Girl on the Train"] ∧
  Book.title <$> allBooks (Some "TRAIN") books = ["The Girl on the Train"] ∧
  Book.title <$> allBooks (Some "the") books =
    ["The Guardians"; "The Girl on the Train"; "The Shining"; "The Catcher in the Rye"] ∧
  allBooks (Some "zzz") books = [].
Proof. split_and!; reflexivity. Qed.

(** ** [addBook]: what is stored, what is published, and when *)

Lemma run_addBook_body (input : BookInput.t) (nid : string) (w : World) :
  let b := newBook input nid in
  run (addBook_body input nid) w =
    [ mkWorld (w_books w ++ [b]) (w_published w);
      mkWorld (w_books w ++ [b]) (w_published w ++ [("bookSub", Payload.mk b)]) ].
Proof. reflexivity. Qed.

Lemma addBook_eq (input : BookInput.t) (nid : string) (w : World) :
  let b := newBook input nid in
  addBook input nid w =
    (b, mkWorld (w_books w ++ [b]) (w_published w ++ [("bookSub", Payload.mk b)])).
Proof. reflexivity. Qed.

(** C5. The body of [addBook] passes through exactly two worlds: in the
    first the new book is the last of the array and nothing has been
    published yet, in the second the array is the same and one event has
    been added, on the topic [bookSub], carrying the book that is returned.
    So in every world of the run each event of this call finds its book in
    the array. A listener of [bookSub] that joined before the call receives
    that book and nothing else, as [resolve] takes it out of the event. *)
Theorem addBook_stores_then_publishes (input : BookInput.t) (nid : string) (w : World) :
  let b := fst (addBook input nid w) in
  let w' := snd (addBook input nid w) in
  (∃ w1,
     run (addBook_body input nid) w = [w1; w'] ∧
     w_books w1 = w_books w ++ [b] ∧
     w_published w1 = w_published w ∧
     w_books w' = w_books w1 ∧
     w_published w' = w_published w ++ [("bookSub", Payload.mk b)]) ∧
  (∀ wk e,
     wk ∈ run (addBook_body input nid) w →
     e ∈ drop (length (w_published w)) (w_published wk) →
     e = ("bookSub", Payload.mk b) ∧ b ∈ w_books wk) ∧
  bookSub_resolve (Payload.mk b) = b ∧
  bookSub (length (w_published w)) w' = [b].
Proof.
  cbv zeta. rewrite addBook_eq, run_addBook_body. cbn [fst snd].
  split_and!.
  - eexists. split_and!; reflexivity.
  - intros wk e Hwk He.
    apply elem_of_cons in Hwk as [-> | Hwk]; cbn [w_published w_books] in *.
    + rewrite drop_all in He. by apply elem_of_nil in He.
    + apply list_elem_of_singleton in Hwk as ->. cbn [w_published w_books] in *.
      rewrite drop_app_length in He. apply list_elem_of_singleton in He as ->.
      split; [reflexivity|]. apply elem_of_app. right. by left.
  - reflexivity.
  - unfold bookSub. cbn [w_published]. by rewrite drop_app_length.
Qed.

(** A listener that joins after the call receives nothing from it. *)
Lemma bookSub_late (input : BookInput.t) (nid : string) (w : World) :
  let w' := snd (addBook input nid w) in
  bookSub (length (w_published w')) w' = [].
Proof. cbv zeta. unfold bookSub. by rewrite drop_all. Qed.

(** C6 as the code has it. The book [addBook] returns is the one it
    appends. Its description is the supplied one, or the empty string when
    none is supplied. Its rating is the supplied one when that is truthy,
    and [null] when the rating is omitted or is [0]. Its id is the string
    [nanoid()] returned, which is not empty. *)
Theorem addBook_defaults (input : BookInput.t) (nid : string) (w : World) :
  nanoid_result nid →
  let b := fst (addBook input nid w) in
  let w' := snd (addBook input nid w) in
  w_books w' = w_books w ++ [b] ∧
  (∀ d, BookInput.description input = Some d → Book.description b = d) ∧
  (BookInput.description input = None → Book.description b = "") ∧
  (∀ r, supplied (BookInput.rating input) r → Book.rating b = Some r) ∧
  (falsy_or_omitted (BookInput.rating input) → Book.rating b = None) ∧
  Book.id b = nid ∧
  Book.id b ≠ "".
Proof.
  intros Hnid. cbv zeta. rewrite addBook_eq. cbn [fst snd w_books].
  unfold newBook; cbn [Book.description Book.rating Book.id].
  split_and!.
  - reflexivity.
  - intros d ->. cbn. unfold lor. by destruct d.
  - by intros ->.
  - intros r. apply lor_supplied.
  - apply lor_falsy.
  - reflexivity.
  - intros ->. discriminate Hnid.
Qed.

Lemma addBook_defaults_witness :
  let input := BookInput.mk "Dune" None None "Herbert" 1965 in
  let b := fst (addBook input "V1StGXR8_Z5jdHi6B-myT" (mkWorld [] [])) in
  nanoid_result "V1StGXR8_Z5jdHi6B-myT" ∧
  Book.description b = "" ∧ Book.rating b = None ∧ Book.id b ≠ "".
Proof.
  cbv zeta.
  pose proof (addBook_defaults (BookInput.mk "Dune" None None "Herbert" 1965)
                "V1StGXR8_Z5jdHi6B-myT" (mkWorld [] []) eq_refl)
    as (_ & _ & Hd & _ & Hr & _ & Hid).
  split_and!; [reflexivity | by apply Hd | apply Hr; by left | exact Hid].
Defined.

(** A rating of [0] is supplied and is not what is stored. *)
Lemma addBook_rating_zero_dropped :
  BookInput.rating (BookInput.mk "Dune" None (Some 0%float) "Herbert" 1965)
    = Some 0%float ∧
  Book.rating
    (fst (addBook (BookInput.mk "Dune" None (Some 0%float) "Herbert" 1965)
            "V1StGXR8_Z5jdHi6B-myT" initial))
    = None.
Proof. split; reflexivity. Qed.

(** ** [addBook] behind the schema *)

(** C2 as the code has it. A request whose title or author is missing is
    refused before the resolver runs and the world stays as it was. A
    request whose title, author and year are there, with a year that fits
    [Int] and a rating that is absent or fits [Float], is served, whatever
    the strings are: the book is appended and published. *)
Theorem mutation_addBook_required_fields
    (raw : RawBookInput.t) (nid : string) (w : World) :
  (RawBookInput.title raw = None ∨ RawBookInput.author raw = None →
   mutation_addBook raw nid w = (Failure ValidationError, w)) ∧
  (∀ t a y,
     RawBookInput.title raw = Some t →
     RawBookInput.author raw = Some a →
     RawBookInput.year raw = Some y →
     fits_Int y = true →
     from_option fits_Float true (RawBookInput.rating raw) = true →
     ∃ b,
       mutation_addBook raw nid w =
         (Data b, mkWorld (w_books w ++ [b])
                    (w_published w ++ [("bookSub", Payload.mk b)])) ∧
       Book.title b = t ∧ Book.author b = a ∧ Book.year b = y).
Proof.
  unfold mutation_addBook, coerce_BookInput. split.
  - intros [-> | Ha]; [reflexivity|]. rewrite Ha. by destruct (RawBookInput.title raw).
  - intros t a y -> -> -> -> ->. eexists. split; [reflexivity|]. by split_and!.
Qed.

(** An empty title is not refused: the book is appended. *)
Lemma mutation_addBook_empty_title_accepted :
  ∃ b w',
    mutation_addBook
      (RawBookInput.mk (Some "") None None (Some "Herbert") (Some 1965%Z))
      "V1StGXR8_Z5jdHi6B-myT" initial = (Data b, w') ∧
    Book.title b = "" ∧
    w_books w' = books ++ [b] ∧
    length (w_books w') = 8.
Proof. do 2 eexists. split_and!; reflexivity. Qed.

(** ** Unique ids along every history *)

Lemma nanoids_app (os1 os2 : list op) :
  nanoids (os1 ++ os2) = nanoids os1 ++ nanoids os2.
Proof.
  induction os1 as [|[input nid|input|i] os1 IH]; cbn; [done| |done..].
  by rewrite IH.
Qed.

Lemma ids_Create (input : BookInput.t) (nid : string) (w : World) :
  ids (step w (Create input nid)) = ids w ++ [nid].
Proof. unfold ids. cbn. by rewrite fmap_app. Qed.

(** [updateBook] writes a book with the id it found: the ids do not move. *)
Lemma ids_Update (input : UpdateBookInput.t) (w : World) :
  ids (step w (Update input)) = ids w.
Proof.
  unfold ids, step, updateBook; cbn [w_books].
  destruct (find_book _ _) as [[k old]|] eqn:Hfind; cbn [snd]; [|done].
  apply find_book_Some in Hfind as (Hk & _).
  rewrite list_fmap_insert, merge_id.
  apply list_insert_id. by rewrite list_lookup_fmap, Hk.
Qed.

(** [deleteBook] removes at most one position. *)
Lemma ids_Delete (i : string) (w : World) :
  ids (step w (Delete i)) `sublist_of` ids w.
Proof.
  unfold ids, step, deleteBook; cbn [w_books].
  destruct (find_book _ _) as [[k b]|]; cbn [fmap option_fmap option_map snd]; [|done].
  rewrite list_fmap_delete. apply sublist_delete.
Qed.

(** Uniqueness is kept by every history whose fresh ids are new to the
    store and differ from each other. *)
Lemma run_ops_unique_ids (os : list op) (w : World) :
  NoDup (ids w) →
  NoDup (nanoids os) →
  (∀ n, n ∈ nanoids os → n ∉ ids w) →
  NoDup (ids (run_ops os w)).
Proof.
  revert w. induction os as [|o os IH]; intros w Hw Hfresh Hnew; [done|].
  change (run_ops (o :: os) w) with (run_ops os (step w o)).
  destruct o as [input nid|input|i]; cbn [nanoids] in Hfresh, Hnew.
  - apply NoDup_cons in Hfresh as [Hnid Hfresh].
    apply IH; [|done|].
    + rewrite ids_Create. apply NoDup_app. split_and!; [done| |apply NoDup_singleton].
      intros x Hx ->%list_elem_of_singleton. apply (Hnew nid); [by left|done].
    + intros n Hn. rewrite ids_Create, elem_of_app, list_elem_of_singleton.
      intros [Hin | ->]; [|done]. apply (Hnew n); [by right|done].
  - apply IH; rewrite ?ids_Update; done.
  - apply IH; [|done|].
    + exact (sublist_NoDup _ _ Hw (ids_Delete i w)).
    + intros n Hn Hin. apply (Hnew n Hn). eapply elem_of_sublist; [done|apply ids_Delete].
Qed.

(** The seed ids have nine characters, so [nanoid()] never returns one. *)
Lemma nanoid_not_seed (n : string) : nanoid_result n → n ∉ ids initial.
Proof.
  unfold nanoid_result. intros Hlen Hin.
  change (ids initial) with
    ["n12clfp3K"; "TaFvKQmgQ"; "3y-67bb6Z"; "Rw3sPphui"; "b8eWGRQo6";
     "HVL-jHzdH"; "eqbOaeNk-"] in Hin.
  repeat (apply elem_of_cons in Hin as [-> | Hin]; [discriminate Hlen|]).
  by apply elem_of_nil in Hin.
Qed.

(** [addBook] keeps the ids unique exactly when the new id is not in the
    store. *)
Lemma unique_ids_Create (input : BookInput.t) (nid : string) (w : World) :
  NoDup (ids w) →
  NoDup (ids (step w (Create input nid))) ↔ nid ∉ ids w.
Proof.
  intros Hw. rewrite ids_Create, NoDup_app. split.
  - intros (_ & Hnew & _) Hin. apply (Hnew nid Hin). by left.
  - intros Hfresh. split_and!; [done| |apply NoDup_singleton].
    by intros x Hx ->%list_elem_of_singleton.
Qed.

(** C3 as the code has it. The ids of the seed store are distinct.
    [updateBook] and [deleteBook] keep the ids of any store distinct.
    [addBook] keeps them distinct exactly when the string [nanoid()]
    returned is the id of no stored book; it does not check this. So after
    every prefix of a history in which [nanoid()] returned 21-character
    strings that differ from each other, no two books share an id. *)
Theorem ids_stay_unique :
  unique_ids (w_books initial) ∧
  (∀ w input,
     unique_ids (w_books w) → unique_ids (w_books (step w (Update input)))) ∧
  (∀ w i,
     unique_ids (w_books w) → unique_ids (w_books (step w (Delete i)))) ∧
  (∀ w input nid,
     unique_ids (w_books w) →
     unique_ids (w_books (step w (Create input nid))) ↔ nid ∉ ids w) ∧
  (∀ os,
     Forall nanoid_result (nanoids os) →
     NoDup (nanoids os) →
     ∀ done_so_far, done_so_far `prefix_of` os →
       unique_ids (w_books (run_ops done_so_far initial))).
Proof.
  split_and!.
  - exact unique_ids_books.
  - intros w input Hw. change (NoDup (ids (step w (Update input)))).
    by rewrite ids_Update.
  - intros w i Hw. exact (sublist_NoDup _ _ Hw (ids_Delete i w)).
  - intros w input nid Hw. by apply unique_ids_Create.
  - intros os Hshape Hfresh os' [rest ->].
    rewrite nanoids_app in Hshape, Hfresh.
    apply Forall_app in Hshape as [Hshape _].
    apply NoDup_app in Hfresh as (Hfresh & _ & _).
    apply (run_ops_unique_ids os' initial).
    + exact unique_ids_books.
    + exact Hfresh.
    + intros n Hn. apply nanoid_not_seed.
      by eapply (proj1 (Forall_forall _ _) Hshape).
Qed.

Lemma ids_stay_unique_witness :
  Forall nanoid_result (nanoids sample_history) ∧
  NoDup (nanoids sample_history) ∧
  unique_ids (w_books (run_ops sample_history initial)).
Proof.
  assert (Forall nanoid_result (nanoids sample_history)) as Hshape.
  { repeat constructor. }
  assert (NoDup (nanoids sample_history)) as Hfresh.
  { apply (bool_decide_unpack _). vm_compute. exact I. }
  split_and!; [exact Hshape | exact Hfresh |].
  exact (proj2 (proj2 (proj2 (proj2 ids_stay_unique))) sample_history Hshape Hfresh
           sample_history (reflexivity sample_history)).
Defined.

(** When [nanoid()] returns the same string twice, two books of the store
    share it: [addBook] appends without looking at the ids. *)
Lemma ids_collide_when_nanoid_repeats :
  ids (run_ops colliding_history initial) !! 7 = Some "V1StGXR8_Z5jdHi6B-myT" ∧
  ids (run_ops colliding_history initial) !! 8 = Some "V1StGXR8_Z5jdHi6B-myT" ∧
  Book.title <$> w_books (run_ops colliding_history initial) !! 7 = Some "Dune" ∧
  Book.title <$> w_books (run_ops colliding_history initial) !! 8 = Some "Emma".
Proof. split_and!; reflexivity. Qed.

Example sample_history_ids :
  ids (run_ops sample_history initial) =
    ["n12clfp3K"; "TaFvKQmgQ"; "Rw3sPphui"; "b8eWGRQo6"; "HVL-jHzdH"; "eqbOaeNk-";
     "V1StGXR8_Z5jdHi6B-myT"; "Uakgb_J5m9g-0JDMbcJqL"].
Proof. reflexivity. Qed.

(** * Further properties of the resolvers *)

(** ** Looking a book up by id *)

Lemma getBook_cons (j : string) (b : Book.t) (l : list Book.t) :
  getBook j (b :: l) = if decide (Book.id b = j) then Some b else getBook j l.
Proof.
  unfold getBook, find_book. cbn. case_decide; [done|].
  by destruct (list_find _ l) as [[k x]|].
Qed.

Lemma getBook_app (j : string) (l1 l2 : list Book.t) :
  getBook j (l1 ++ l2) =
  match getBook j l1 with
  | Some x => Some x
  | None => getBook j l2
  end.
Proof.
  induction l1 as [|b l1 IH]; [done|].
  change ((b :: l1) ++ l2) with (b :: (l1 ++ l2)).
  rewrite !getBook_cons. by case_decide.
Qed.

Lemma getBook_delete_other (j : string) (l : list Book.t) (k : nat) (b : Book.t) :
  l !! k = Some b → Book.id b ≠ j → getBook j (delete k l) = getBook j l.
Proof.
  revert k. induction l as [|x l IH]; intros [|k] Hk Hne; try done.
  - injection Hk as ->. cbn [delete list_delete]. rewrite getBook_cons.
    by case_decide.
  - cbn [delete list_delete]. rewrite !getBook_cons. case_decide; [done|].
    by apply IH.
Qed.

Lemma getBook_insert_other (j : string) (l : list Book.t) (k : nat) (b b' : Book.t) :
  l !! k = Some b → Book.id b ≠ j → Book.id b' ≠ j →
  getBook j (<[k := b']> l) = getBook j l.
Proof.
  revert k. induction l as [|x l IH]; intros [|k] Hk Hne Hne'; try done.
  - injection Hk as ->. change (<[0 := b']> (b :: l)) with (b' :: l).
    rewrite !getBook_cons. by repeat case_decide.
  - change (<[S k := b']> (x :: l)) with (x :: <[k := b']> l).
    rewrite !getBook_cons. case_decide; [done|]. by apply IH.
Qed.

(** X1. In every store, what [getBook] returns is a book of the store with
    the id asked for, and it returns one whenever the store holds a book
    with that id. When the ids of the store are unique it returns every such
    book: [getBook i] is [b] exactly when [b] is in the store with id [i]. *)
Theorem getBook_sound_complete (i : string) (store : list Book.t) (b : Book.t) :
  (getBook i store = Some b → b ∈ store ∧ Book.id b = i) ∧
  (b ∈ store → Book.id b = i → ∃ b', getBook i store = Some b') ∧
  (unique_ids store → getBook i store = Some b ↔ b ∈ store ∧ Book.id b = i).
Proof.
  assert (getBook i store = Some b → b ∈ store ∧ Book.id b = i) as Hsound.
  { intros (k & (Hk & Hid & _)%find_book_Some)%getBook_Some.
    split; [by eapply list_elem_of_lookup_2 | done]. }
  split_and!.
  - exact Hsound.
  - intros Hin Hid. destruct (first_with_id_exists _ _ _ Hin Hid) as (k & b' & Hb').
    exists b'. apply getBook_Some. exists k. by apply find_book_first.
  - intros Huniq. split; [exact Hsound|]. intros (Hin & <-).
    destruct (first_with_id_unique store b Huniq Hin) as [k Hk].
    apply getBook_Some. exists k. by apply find_book_first.
Qed.

Lemma getBook_sound_complete_witness :
  unique_ids books ∧
  (getBook "HVL-jHzdH" books =
     Some (Book.mk "HVL-jHzdH" "Foundation"
             "The first novel in Isaac Asimov’s classic science-fiction masterpiece, the Foundation series"
             (Some 4.5%float) "Isaak Asimov" 1942)
   ↔ Book.mk "HVL-jHzdH" "Foundation"
       "The first novel in Isaac Asimov’s classic science-fiction masterpiece, the Foundation series"
       (Some 4.5%float) "Isaak Asimov" 1942 ∈ books
     ∧ "HVL-jHzdH" = "HVL-jHzdH").
Proof.
  split; [exact unique_ids_books|].
  exact (proj2 (proj2 (getBook_sound_complete "HVL-jHzdH" books _)) unique_ids_books).
Defined.

(** X2. [deleteBook] of one id does not change what [getBook] returns for
    any other id, whatever the store. *)
Theorem deleteBook_other_ids (i j : string) (store : list Book.t) :
  i ≠ j →
  getBook j (snd (deleteBook i store)) = getBook j store.
Proof.
  intros Hne. destruct (find_book i store) as [[k b]|] eqn:Hfind.
  - rewrite (deleteBook_found _ _ _ _ Hfind). cbn [snd].
    apply find_book_Some in Hfind as (Hk & Hid & _).
    eapply getBook_delete_other; [done|congruence].
  - by rewrite (deleteBook_not_found _ _ Hfind).
Qed.

Lemma deleteBook_other_ids_witness :
  "3y-67bb6Z" ≠ "HVL-jHzdH" ∧
  getBook "HVL-jHzdH" (snd (deleteBook "3y-67bb6Z" books)) = getBook "HVL-jHzdH" books.
Proof.
  assert ("3y-67bb6Z" ≠ "HVL-jHzdH") as Hne by discriminate.
  split; [exact Hne|]. exact (deleteBook_other_ids _ _ books Hne).
Defined.

(** X3. [updateBook] for one id does not change what [getBook] returns for
    any other id. *)
Theorem updateBook_other_ids (input : UpdateBookInput.t) (j : string) (store : list Book.t) :
  UpdateBookInput.id input ≠ j →
  getBook j (snd (updateBook input store)) = getBook j store.
Proof.
  intros Hne. unfold updateBook.
  destruct (find_book _ store) as [[k old]|] eqn:Hfind; cbn [snd]; [|done].
  apply find_book_Some in Hfind as (Hk & Hid & _).
  eapply getBook_insert_other; [done|congruence|by rewrite merge_id, Hid].
Qed.

Lemma updateBook_other_ids_witness :
  UpdateBookInput.id
    (UpdateBookInput.mk "HVL-jHzdH" None None None (Some "Isaac Asimov") None)
    ≠ "3y-67bb6Z" ∧
  getBook "3y-67bb6Z"
    (snd (updateBook
            (UpdateBookInput.mk "HVL-jHzdH" None None None (Some "Isaac Asimov") None)
            books))
  = getBook "3y-67bb6Z" books.
Proof.
  assert (UpdateBookInput.id
            (UpdateBookInput.mk "HVL-jHzdH" None None None (Some "Isaac Asimov") None)
          ≠ "3y-67bb6Z") as Hne by discriminate.
  split; [exact Hne|]. exact (updateBook_other_ids _ _ books Hne).
Defined.

(** X4. After [addBook], [getBook] returns what it returned before for
    every id that had a book; for an id that had none it returns the new
    book when the id is the generated one and nothing otherwise. So a fresh
    id finds the new book, and an id that was already taken keeps finding
    the older book: [addBook] does not look at the ids of the store. *)
Theorem addBook_then_getBook
    (input : BookInput.t) (nid j : string) (w : World) :
  getBook j (w_books (snd (addBook input nid w))) =
  match getBook j (w_books w) with
  | Some older => Some older
  | None => if decide (nid = j) then Some (fst (addBook input nid w)) else None
  end.
Proof.
  rewrite addBook_eq. cbn [fst snd w_books]. rewrite getBook_app.
  destruct (getBook j (w_books w)); [done|].
  rewrite getBook_cons. cbn [Book.id newBook]. by case_decide.
Qed.

(** X5. [deleteBook] of the id just generated undoes [addBook] on the
    array, when no stored book had that id: it returns the new book and the
    array is what it was. *)
Theorem addBook_then_deleteBook (input : BookInput.t) (nid : string) (w : World) :
  getBook nid (w_books w) = None →
  deleteBook nid (w_books (snd (addBook input nid w))) =
    (Some (fst (addBook input nid w)), w_books w).
Proof.
  intros Hfresh. rewrite addBook_eq. cbn [fst snd w_books].
  rewrite (deleteBook_found nid _ (length (w_books w)) (newBook input nid)).
  - f_equal. rewrite (delete_middle (w_books w) []). apply app_nil_r.
  - apply find_book_Some. split_and!.
    + by rewrite list_lookup_middle.
    + reflexivity.
    + intros k y Hk Hlt. rewrite lookup_app_l in Hk by done.
      eapply getBook_None; [exact Hfresh|]. by eapply list_elem_of_lookup_2.
Qed.

Lemma addBook_then_deleteBook_witness :
  getBook "V1StGXR8_Z5jdHi6B-myT" (w_books initial) = None ∧
  snd (deleteBook "V1StGXR8_Z5jdHi6B-myT"
         (w_books
            (snd (addBook (BookInput.mk "Dune" None None "Herbert" 1965)
                    "V1StGXR8_Z5jdHi6B-myT" initial))))
  = books.
Proof.
  split; [reflexivity|].
  exact (f_equal snd
           (addBook_then_deleteBook (BookInput.mk "Dune" None None "Herbert" 1965)
              "V1StGXR8_Z5jdHi6B-myT" initial eq_refl)).
Defined.

(** X6. In a store with unique ids a second [deleteBook] of the same id
    finds nothing: it returns nothing and leaves the store as the first
    left it. *)
Theorem deleteBook_twice (i : string) (store : list Book.t) :
  unique_ids store →
  deleteBook i (snd (deleteBook i store)) = (None, snd (deleteBook i store)).
Proof.
  intros Huniq. apply deleteBook_not_found, find_book_None, Forall_forall.
  destruct (find_book i store) as [[k b]|] eqn:Hfind.
  - rewrite (deleteBook_found _ _ _ _ Hfind). cbn [snd].
    apply find_book_Some in Hfind as (Hk & <- & _).
    intros b' Hb'. by eapply delete_unique_id.
  - rewrite (deleteBook_not_found _ _ Hfind). cbn [snd].
    by apply Forall_forall, find_book_None.
Qed.

Lemma deleteBook_twice_witness :
  unique_ids books ∧
  deleteBook "3y-67bb6Z" (snd (deleteBook "3y-67bb6Z" books))
    = (None, snd (deleteBook "3y-67bb6Z" books)).
Proof.
  split; [exact unique_ids_books|].
  exact (deleteBook_twice "3y-67bb6Z" books unique_ids_books).
Defined.

(** ** Updates: what they cannot do, and how they compose *)

Section LorAlgebra.
Context {A : Type} `{Truthy A}.

Lemma lor_dflt_keeps_truthy (x : option A) (y : A) :
  truthy y = true → truthy (lor_dflt x y) = true.
Proof.
  intros Hy. destruct x as [v|]; cbn; [|done].
  unfold lor. by destruct (truthy v) eqn:Hv.
Qed.

Lemma lor_keeps_truthy (x y : option A) :
  truthy y = true → truthy (lor x y) = true.
Proof. intros Hy. unfold lor. by destruct (truthy x) eqn:Hx. Qed.

(** [b || (a || y)] is [(b || a) || y]. *)
Lemma lor_Some (v : A) (y : option A) :
  lor (Some v) y = if truthy v then Some v else y.
Proof. reflexivity. Qed.

Lemma lor_None (y : option A) : lor None y = y.
Proof. reflexivity. Qed.

Lemma lor_dflt_lor (a b : option A) (y : A) :
  lor_dflt b (lor_dflt a y) = lor_dflt (lor b a) y.
Proof.
  destruct b as [vb|]; [|by rewrite lor_None].
  rewrite lor_Some. cbn [lor_dflt]. unfold lor at 1.
  destruct (truthy vb) eqn:Hb; [|done].
  cbn [lor_dflt]. unfold lor. by rewrite Hb.
Qed.

Lemma lor_assoc (a b y : option A) :
  lor b (lor a y) = lor (lor b a) y.
Proof.
  unfold lor. destruct (truthy b) eqn:Hb; [by rewrite Hb|].
  destruct (truthy a) eqn:Ha; by rewrite ?Ha.
Qed.

Lemma lor_dflt_idemp (x : option A) (y : A) :
  lor_dflt x (lor_dflt x y) = lor_dflt x y.
Proof.
  destruct x as [v|]; cbn; [|done]. unfold lor.
  destruct (truthy v) eqn:Hv; by rewrite ?Hv.
Qed.

Lemma lor_idemp (x y : option A) : lor x (lor x y) = lor x y.
Proof. unfold lor. destruct (truthy x) eqn:Hx; by rewrite ?Hx. Qed.
End LorAlgebra.

Lemma merge_idemp (input : UpdateBookInput.t) (b : Book.t) :
  merge input (merge input b) = merge input b.
Proof.
  unfold merge; cbn. by rewrite !lor_dflt_idemp, lor_idemp.
Qed.

Lemma merge_combine (first second : UpdateBookInput.t) (b : Book.t) :
  merge second (merge first b) = merge (combine first second) b.
Proof.
  unfold merge, combine; cbn. by rewrite !lor_dflt_lor, lor_assoc.
Qed.

(** X7. [updateBook] is idempotent: the same input applied again returns
    the same book and leaves the store as the first application left it. *)
Theorem updateBook_idempotent (input : UpdateBookInput.t) (store : list Book.t) :
  updateBook input (snd (updateBook input store)) = updateBook input store.
Proof.
  unfold updateBook at 2 3.
  destruct (find_book _ store) as [[k old]|] eqn:Hfind; cbn [snd].
  - unfold updateBook.
    rewrite (find_book_insert _ store k old (merge input old) Hfind)
      by (rewrite merge_id; by apply find_book_Some in Hfind as (_ & ? & _)).
    by rewrite merge_idemp, list_insert_insert_eq.
  - unfold updateBook. by rewrite Hfind.
Qed.

(** X8. [updateBook] cannot clear a field: a title, description or author
    that was not empty, a year that was not [0] and a rating that was a
    non-zero number are still so in the book it returns, whatever the
    input. *)
Theorem updateBook_never_clears (input : UpdateBookInput.t) (store : list Book.t) :
  match getBook (UpdateBookInput.id input) store, fst (updateBook input store) with
  | Some old, Some new =>
      (Book.title old ≠ "" → Book.title new ≠ "") ∧
      (Book.description old ≠ "" → Book.description new ≠ "") ∧
      (Book.author old ≠ "" → Book.author new ≠ "") ∧
      (Book.year old ≠ 0%Z → Book.year new ≠ 0%Z) ∧
      (truthy (Book.rating old) = true → truthy (Book.rating new) = true)
  | Some _, None => False
  | None, result => result = None
  end.
Proof.
  unfold getBook, updateBook.
  destruct (find_book _ store) as [[k old]|]; cbn; [|done].
  rewrite <- !truthy_string_nonempty, <- !truthy_Z_nonzero.
  split_and!; first [apply lor_dflt_keeps_truthy | apply lor_keeps_truthy].
Qed.

(** X9. Two updates of the same id compose into one: applying [first] and
    then [second] returns the book and leaves the store that the single
    input with fields [second.x || first.x] gives. *)
Theorem updateBook_compose (first second : UpdateBookInput.t) (store : list Book.t) :
  UpdateBookInput.id first = UpdateBookInput.id second →
  updateBook second (snd (updateBook first store)) =
  updateBook (combine first second) store.
Proof.
  intros Hid. unfold updateBook at 2 3. cbn [combine UpdateBookInput.id].
  rewrite Hid.
  destruct (find_book _ store) as [[k old]|] eqn:Hfind; cbn [snd].
  - unfold updateBook. rewrite <- Hid at 1. rewrite Hid.
    rewrite (find_book_insert _ store k old (merge first old) Hfind)
      by (rewrite merge_id; by apply find_book_Some in Hfind as (_ & ? & _)).
    by rewrite merge_combine, list_insert_insert_eq.
  - unfold updateBook. by rewrite Hfind.
Qed.

Lemma updateBook_compose_witness :
  let first := UpdateBookInput.mk "HVL-jHzdH" (Some "Foundation I") None None
                 (Some "Isaac Asimov") None in
  let second := UpdateBookInput.mk "HVL-jHzdH" (Some "") None (Some 5%float)
                  (Some "I. Asimov") (Some 0%Z) in
  UpdateBookInput.id first = UpdateBookInput.id second ∧
  updateBook second (snd (updateBook first books)) =
  updateBook (combine first second) books.
Proof.
  cbv zeta. split; [reflexivity|].
  exact (updateBook_compose
           (UpdateBookInput.mk "HVL-jHzdH" (Some "Foundation I") None None
              (Some "Isaac Asimov") None)
           (UpdateBookInput.mk "HVL-jHzdH" (Some "") None (Some 5%float)
              (Some "I. Asimov") (Some 0%Z))
           books eq_refl).
Defined.

Example updateBook_compose_sample :
  (λ b, (Book.title b, Book.author b, Book.year b, Book.rating b)) <$>
    fst (updateBook
           (UpdateBookInput.mk "HVL-jHzdH" (Some "") None (Some 5%float)
              (Some "I. Asimov") (Some 0%Z))
           (snd (updateBook
                   (UpdateBookInput.mk "HVL-jHzdH" (Some "Foundation I") None None
                      (Some "Isaac Asimov") None)
                   books)))
  = Some ("Foundation I", "I. Asimov", 1942%Z, Some 5%float).
Proof. reflexivity. Qed.

(** ** Requests behind the schema *)

(** X10. A request for [addBook] is refused exactly when title, author or
    year is missing, the year does not fit [Int], or a rating is there that
    does not fit [Float]; it is then refused before the resolver runs, so
    the array and the events are what they were. In every other case it is
    served. *)
Theorem mutation_addBook_refused_iff
    (raw : RawBookInput.t) (nid : string) (w : World) :
  (fst (mutation_addBook raw nid w) = Failure ValidationError ↔
   RawBookInput.title raw = None ∨ RawBookInput.author raw = None ∨
   RawBookInput.year raw = None ∨
   (∃ y, RawBookInput.year raw = Some y ∧ fits_Int y = false) ∨
   (∃ r, RawBookInput.rating raw = Some r ∧ fits_Float r = false)) ∧
  (fst (mutation_addBook raw nid w) = Failure ValidationError →
   snd (mutation_addBook raw nid w) = w) ∧
  ((∃ b, fst (mutation_addBook raw nid w) = Data b) ∨
   fst (mutation_addBook raw nid w) = Failure ValidationError).
Proof.
  unfold mutation_addBook, coerce_BookInput.
  destruct (RawBookInput.title raw) as [t|]; cbn [fst snd];
    [|split_and!; [split; auto | done | by right]].
  destruct (RawBookInput.author raw) as [a|]; cbn [fst snd];
    [|split_and!; [split; auto | done | by right]].
  destruct (RawBookInput.year raw) as [y|]; cbn [fst snd];
    [|split_and!; [split; auto | done | by right]].
  destruct (fits_Int y) eqn:Hy; cbn [andb fst snd];
    [|split_and!; [split; [intros _|done] | done | by right];
      right; right; right; left; by exists y].
  destruct (RawBookInput.rating raw) as [r|]; cbn [from_option].
  - destruct (fits_Float r) eqn:Hr; cbn [fst snd].
    + split_and!; [split; [done|] | done | left; by eexists].
      intros [?|[?|[?|[(y' & [= <-] & ?)|(r' & [= <-] & ?)]]]]; congruence.
    + split_and!; [split; [intros _|done] | done | by right].
      right; right; right; right. by exists r.
  - cbn [fst snd]. split_and!; [split; [done|] | done | left; by eexists].
    intros [?|[?|[?|[(y' & [= <-] & ?)|(r' & ? & ?)]]]]; congruence.
Qed.

Example mutation_addBook_year_out_of_range :
  fst (mutation_addBook
         (RawBookInput.mk (Some "Dune") None None (Some "Herbert") (Some 2147483648%Z))
         "V1StGXR8_Z5jdHi6B-myT" initial)
  = Failure ValidationError.
Proof. reflexivity. Qed.

(** X11. The requests [updateBook] and [getBook] fail on the same ids:
    both results are declared [Book!], so for an id that no stored book has
    both fail, and [updateBook] then leaves the store as it was; for an id
    that a stored book has, [getBook] yields that book and [updateBook]
    yields the merged one. *)
Theorem mutation_updateBook_like_getBook
    (input : UpdateBookInput.t) (store : list Book.t) :
  match getBook (UpdateBookInput.id input) store with
  | Some old =>
      query_getBook (UpdateBookInput.id input) store = Data old ∧
      fst (mutation_updateBook input store) = Data (merge input old) ∧
      query_getBook (UpdateBookInput.id input) (snd (mutation_updateBook input store))
        = Data (merge input old)
  | None =>
      query_getBook (UpdateBookInput.id input) store = Failure NullForNonNull ∧
      mutation_updateBook input store = (Failure NullForNonNull, store)
  end.
Proof.
  unfold query_getBook, mutation_updateBook, updateBook, getBook at 1 2 4.
  destruct (find_book _ store) as [[k old]|] eqn:Hfind;
    cbn [fmap option_fmap option_map fst snd complete_nonnull]; [|done].
  split_and!; [done..|].
  unfold getBook.
  rewrite (find_book_insert _ store k old (merge input old) Hfind); [done|].
  rewrite merge_id. by apply find_book_Some in Hfind as (_ & ? & _).
Qed.

(** ** More on the search *)

Lemma append_assoc (s t u : string) : (s +:+ t) +:+ u = s +:+ t +:+ u.
Proof.
  induction s as [|c s IH]; [done|]. by rewrite !append_cons, IH.
Qed.


Lemma length_append (s t : string) :
  String.length (s +:+ t) = (String.length s + String.length t)%nat.
Proof.
  induction s as [|c s IH]; [done|]. rewrite append_cons. cbn. by rewrite IH.
Qed.


Lemma includes_empty (s : string) : includes s "" = true.
Proof. apply includes_infix. by exists "", s. Qed.

Lemma includes_trans (s t u : string) :
  includes s t = true → includes t u = true → includes s u = true.
Proof.
  rewrite !includes_infix. intros (a & b & ->) (c & d & ->).
  exists (a +:+ c), (d +:+ b). by rewrite !append_assoc.
Qed.

Lemma includes_length (s t : string) :
  includes s t = true → (String.length t ≤ String.length s)%nat.
Proof.
  rewrite includes_infix. intros (a & b & ->). rewrite !length_append. lia.
Qed.

Lemma includes_in_empty (t : string) : includes "" t = true → t = "".
Proof.
  intros Ht%includes_length. destruct t; [done|]. cbn in Ht. lia.
Qed.

Lemma filter_sublist {A} (f : A → bool) (l : list A) :
  List.filter f l `sublist_of` l.
Proof.
  induction l as [|x l IH]; cbn; [constructor|].
  destruct (f x); by constructor.
Qed.

Lemma filter_sublist_impl {A} (f g : A → bool) (l : list A) :
  (∀ x, x ∈ l → f x = true → g x = true) →
  List.filter f l `sublist_of` List.filter g l.
Proof.
  induction l as [|x l IH]; intros Himp; cbn; [constructor|].
  assert (List.filter f l `sublist_of` List.filter g l) as Hrec.
  { apply IH. intros y Hy. apply Himp. by right. }
  destruct (f x) eqn:Hf.
  - rewrite (Himp x (list_elem_of_here _ _) Hf). by constructor.
  - destruct (g x); [by constructor | done].
Qed.

Lemma filter_idemp {A} (f : A → bool) (l : list A) :
  List.filter f (List.filter f l) = List.filter f l.
Proof.
  induction l as [|x l IH]; cbn; [done|].
  destruct (f x) eqn:Hf; cbn; by rewrite ?Hf, IH.
Qed.

Lemma filter_all {A} (f : A → bool) (l : list A) :
  (∀ x, f x = true) → List.filter f l = l.
Proof.
  intros Hf. induction l as [|x l IH]; cbn; [done|]. by rewrite Hf, IH.
Qed.

Lemma allBooks_keeps_order `{Unicode} (search : option string) (store : list Book.t) :
  allBooks search store `sublist_of` store.
Proof.
  destruct search as [[|c s]|]; [done| |done].
  rewrite (allBooks_search (String c s)) by done. apply filter_sublist.
Qed.

(** A term whose lower-case form is empty selects every book. *)
Lemma allBooks_lower_empty `{Unicode} (term : string) (store : list Book.t) :
  toLowerCase term = "" → allBooks (Some term) store = store.
Proof.
  intros Hterm. destruct term as [|c s]; [done|].
  rewrite allBooks_search by done. rewrite Hterm.
  apply filter_all. intros book. apply includes_empty.
Qed.

(** X12. [allBooks] never makes a book up and never reorders: whatever the
    search, its result is the store with some books left out. Searching the
    result again with the same term changes nothing. *)
Theorem allBooks_sublist `{Unicode} (search : option string) (store : list Book.t) :
  allBooks search store `sublist_of` store ∧
  allBooks search (allBooks search store) = allBooks search store.
Proof.
  split; [apply allBooks_keeps_order|].
  destruct search as [[|c s]|]; [done| |done].
  rewrite !(allBooks_search (String c s)) by done. apply filter_idemp.
Qed.

(** X13. The search goes book by book: over two stores put end to end it
    returns the matches of the first followed by the matches of the second.
    So a book appended by [addBook] is listed last, or not at all. *)
Theorem allBooks_app `{Unicode} (search : option string) (l1 l2 : list Book.t) :
  allBooks search (l1 ++ l2) = allBooks search l1 ++ allBooks search l2.
Proof.
  destruct search as [[|c s]|]; [done| |done].
  rewrite !(allBooks_search (String c s)) by done. apply List.filter_app.
Qed.



(** X15. The search ignores the case of the term: two terms that agree once
    put in lower case return the same books. *)
Theorem allBooks_term_case `{Unicode} (s1 s2 : string) (store : list Book.t) :
  toLowerCase s1 = toLowerCase s2 →
  allBooks (Some s1) store = allBooks (Some s2) store.
Proof.
  intros Hlow. destruct s1 as [|c1 r1], s2 as [|c2 r2].
  - reflexivity.
  - symmetry. by apply allBooks_lower_empty.
  - by apply allBooks_lower_empty.
  - rewrite !allBooks_search by done. by rewrite Hlow.
Qed.

Lemma allBooks_term_case_witness :
  toLowerCase (H := ascii_only) "TrAiN" = toLowerCase (H := ascii_only) "train" ∧
  allBooks (H := ascii_only) (Some "TrAiN") books
    = allBooks (H := ascii_only) (Some "train") books.
Proof.
  split; [reflexivity|].
  exact (allBooks_term_case (H := ascii_only) "TrAiN" "train" books eq_refl).
Defined.

(** X16. A longer term narrows the search: when the lower-case form of
    [short] occurs in the lower-case form of [long], every book found for
    [long] is found for [short], in the same order. *)
Theorem allBooks_narrows `{Unicode} (short long : string) (store : list Book.t) :
  includes (toLowerCase long) (toLowerCase short) = true →
  allBooks (Some long) store `sublist_of` allBooks (Some short) store.
Proof.
  intros Hocc. destruct short as [|c s].
  - apply (allBooks_keeps_order (Some long) store).
  - destruct long as [|c' l].
    + apply includes_in_empty in Hocc.
      by rewrite (allBooks_lower_empty _ store Hocc).
    + rewrite !allBooks_search by done.
      apply filter_sublist_impl. intros b _ Hb. by eapply includes_trans.
Qed.

Lemma allBooks_narrows_witness :
  includes (toLowerCase (H := ascii_only) "the g")
    (toLowerCase (H := ascii_only) "THE") = true ∧
  allBooks (H := ascii_only) (Some "the g") books
    `sublist_of` allBooks (H := ascii_only) (Some "THE") books ∧
  Book.title <$> allBooks (H := ascii_only) (Some "the g") books
    = ["The Guardians"; "The Girl on the Train"].
Proof.
  split_and!; [reflexivity | | reflexivity].
  exact (allBooks_narrows (H := ascii_only) "THE" "the g" books eq_refl).
Defined.

(** X17. A term whose lower-case form is longer than the lower-case form of
    every title finds nothing. *)
Theorem allBooks_term_too_long `{Unicode} (term : string) (store : list Book.t) :
  (∀ b, b ∈ store →
     (String.length (toLowerCase (Book.title b))
      < String.length (toLowerCase term))%nat) →
  allBooks (Some term) store = [].
Proof.
  intros Hlong. destruct term as [|c s].
  - destruct store as [|b store]; [done|].
    specialize (Hlong b (list_elem_of_here _ _)).
    change (toLowerCase "") with "" in Hlong. cbn in Hlong. lia.
  - rewrite allBooks_search by done.
    eapply Selected_none; [apply filter_Selected|].
    intros b Hb Hocc%includes_length. specialize (Hlong b Hb). lia.
Qed.

Lemma allBooks_term_too_long_witness :
  allBooks (H := ascii_only) (Some "the girl on the train, again") books = [].
Proof.
  apply (allBooks_term_too_long (H := ascii_only)).
  intros b Hb. unfold books in Hb.
  repeat (apply elem_of_cons in Hb as [-> | Hb]; [vm_compute; lia|]).
  by apply elem_of_nil in Hb.
Defined.

(** ** Histories: what is published and which ids the store holds *)

Lemma run_ops_cons (o : op) (os : list op) (w : World) :
  run_ops (o :: os) w = run_ops os (step w o).
Proof. reflexivity. Qed.

Lemma published_step (w : World) (o : op) :
  w_published (step w o) = w_published w ++ published_by [o].
Proof. destruct o; cbn; by rewrite ?app_nil_r. Qed.

Lemma published_run_ops (os : list op) (w : World) :
  w_published (run_ops os w) = w_published w ++ published_by os.
Proof.
  revert w. induction os as [|o os IH]; intros w; [by rewrite app_nil_r|].
  rewrite run_ops_cons, IH, published_step, <- app_assoc.
  by destruct o.
Qed.

Lemma published_by_topic (os : list op) :
  List.filter (λ e, String.eqb (fst e) "bookSub") (published_by os) = published_by os.
Proof.
  induction os as [|[input nid|input|i] os IH]; cbn; [done| |done..].
  by rewrite IH.
Qed.

Lemma published_by_ids (os : list op) :
  Book.id <$> (bookSub_resolve <$> (snd <$> published_by os)) = nanoids os.
Proof.
  induction os as [|[input nid|input|i] os IH]; cbn; [done| |done..].
  by rewrite <- IH.
Qed.

(** X18. Along any history the events already published stay as they are,
    exactly one event is added for each created book and none for an update
    or a deletion, and a listener of [bookSub] that joined before the
    history receives one book per creation, in creation order, carrying the
    ids [nanoid()] returned. *)
Theorem bookSub_receives_created (os : list op) (w : World) :
  w_published w `prefix_of` w_published (run_ops os w) ∧
  length (w_published (run_ops os w)) = length (w_published w) + length (nanoids os) ∧
  Book.id <$> bookSub (length (w_published w)) (run_ops os w) = nanoids os.
Proof.
  rewrite published_run_ops. split_and!.
  - by apply prefix_app_r.
  - rewrite length_app. f_equal.
    rewrite <- (published_by_ids os), !length_fmap. reflexivity.
  - unfold bookSub. rewrite published_run_ops, drop_app_length, published_by_topic.
    apply published_by_ids.
Qed.

(** X19. Every id in the store after a history is an id the store started
    with or one that [nanoid()] returned on the way, and these ids keep
    their order: the ids after the history are the starting ids followed by
    the generated ones, with some left out. *)
Theorem ids_after_history (os : list op) (w : World) :
  ids (run_ops os w) `sublist_of` ids w ++ nanoids os.
Proof.
  revert w. induction os as [|o os IH]; intros w.
  - by rewrite app_nil_r.
  - rewrite run_ops_cons. etrans; [apply IH|].
    destruct o as [input nid|input|i]; cbn [nanoids].
    + by rewrite ids_Create, <- app_assoc.
    + by rewrite ids_Update.
    + apply sublist_app; [apply ids_Delete | done].
Qed.

(** X20. A history without deletions removes and reorders nothing: the ids
    of the store are the starting ids followed by the generated ones. *)
Theorem ids_without_delete (os : list op) (w : World) :
  forallb (λ o, negb (is_Delete o)) os = true →
  ids (run_ops os w) = ids w ++ nanoids os.
Proof.
  revert w. induction os as [|o os IH]; intros w Hnd.
  - by rewrite app_nil_r.
  - cbn [forallb] in Hnd. apply andb_true_iff in Hnd as [Ho Hnd].
    rewrite run_ops_cons, (IH _ Hnd).
    destruct o as [input nid|input|i]; cbn [nanoids]; [| |done].
    + by rewrite ids_Create, <- app_assoc.
    + by rewrite ids_Update.
Qed.

Lemma ids_without_delete_witness :
  let os := [
    Create (BookInput.mk "Dune" None None "Herbert" 1965) "V1StGXR8_Z5jdHi6B-myT";
    Update (UpdateBookInput.mk "HVL-jHzdH" None None None (Some "Isaac Asimov") None)
  ] in
  forallb (λ o, negb (is_Delete o)) os = true ∧
  ids (run_ops os initial) = ids initial ++ ["V1StGXR8_Z5jdHi6B-myT"].
Proof.
  cbv zeta. split; [reflexivity|].
  exact (ids_without_delete
           [Create (BookInput.mk "Dune" None None "Herbert" 1965) "V1StGXR8_Z5jdHi6B-myT";
            Update (UpdateBookInput.mk "HVL-jHzdH" None None None
                      (Some "Isaac Asimov") None)]
           initial eq_refl).
Defined.
